(** * MuseTalk streaming server: sessions, message routing and the audio pipeline

    A shallow embedding of [streaming_server.py] (class
    [MuseTalkStreamingServer]) and of the parts of [musetalk_wrapper.py] it
    calls.  The two dictionaries [self.clients] and [self.avatars] are finite
    maps keyed by strings; the handlers are written in a small state and
    exception monad over the server state, so that every [try]/[except] of the
    source is visible; the per-session audio pipeline (handler versus worker
    thread) is a labelled transition system whose steps are the statements of
    [handle_audio_chunk] and [process_audio_queue]. *)

From stdpp Require Import gmap strings list fin_maps pretty.

Open Scope Z_scope.

Set Warnings "-register-all".

(** ** Values *)

(** A Python [bytes] object. *)
Definition bytes := list Byte.byte.

(** What [json.loads] returns.  A dictionary is the list of its items (keys
    are distinct); numbers are restricted to integers. *)
Inductive json :=
| JNull
| JBool (b : bool)
| JNum (n : Z)
| JStr (s : string)
| JArr (items : list json)
| JObj (fields : list (string * json)).

(** Python truthiness, as in [if not x]. *)
Definition truthy (v : json) : bool :=
  match v with
  | JNull => false
  | JBool b => b
  | JNum n => negb (n =? 0)
  | JStr s => negb (String.eqb s "")
  | JArr l => match l with [] => false | _ => true end
  | JObj l => match l with [] => false | _ => true end
  end.

(** [avatar_id] of a client entry is [None] or a string; [if not avatar_id]. *)
Definition truthy_id (a : option string) : bool :=
  match a with
  | None => false
  | Some s => negb (String.eqb s "")
  end.

Fixpoint assoc (k : string) (l : list (string * json)) : option json :=
  match l with
  | [] => None
  | (k', v) :: r => if String.eqb k k' then Some v else assoc k r
  end.

(** Outbound frames.  The constant [message] texts that accompany the
    non-error frames carry no information and are left out. *)
Inductive event :=
| connection_established (client_id : string)
| avatar_initialization_started (avatar_id : string)
| avatar_initialized (avatar_id : string)
| audio_received
| video_chunk (video_data : string) (timestamp : Z)
| status (client_id : string) (avatar_initialized : bool)
         (avatar_id : option string) (queue_size : nat) (processing : bool)
| error (message : string).

Definition is_error (e : event) : bool :=
  match e with error _ => true | _ => false end.

Definition is_video_chunk (e : event) : bool :=
  match e with video_chunk _ _ => true | _ => false end.

(** Frames produced by the drain worker: one per chunk is what a client
    waits for. *)
Definition is_result (e : event) : bool := is_video_chunk e || is_error e.

(** ** Exceptions *)

Inductive exn_kind :=
| JSONDecodeError
| AttributeError
| KeyError
| TypeError
| BinasciiError
| FileNotFoundError
| RuntimeError
| ConnectionClosed
| OSError.

Record exn := Exn { kind : exn_kind; text : string }.

Inductive result (A : Type) :=
| Ok (a : A)
| Raise (e : exn).
Arguments Ok {A} a.
Arguments Raise {A} e.

(** ** Server state *)

(** One entry of [self.clients]. *)
Record client := Client {
  websocket : nat;
  avatar_id : option string;
  audio_queue : list bytes;
  processing : bool
}.

(** The fields of a [MuseTalkWrapper] the server depends on. *)
Record wrapper := Wrapper {
  avatar_video_path : string;
  version : json;
  temp_dir : string;
  avatar_prepared : bool
}.

(** Threads started with [threading.Thread(...).start()]. *)
Inductive thread :=
| InitThread (client_id avatar_id : string) (video_path version : json)
| QueueThread (client_id avatar_id : string).

(** [wire] lists the frames written to websockets so far, oldest first;
    [closed] holds the websockets on which [send] raises; [files] is the set
    of paths that exist, as far as the server creates or tests them. *)
Record server := Server {
  clients : gmap string client;
  avatars : gmap string wrapper;
  wire : list (nat * event);
  closed : gset nat;
  files : gset string;
  threads : list thread
}.

Definition set_clients (f : gmap string client → gmap string client) (s : server) : server :=
  Server (f (clients s)) (avatars s) (wire s) (closed s) (files s) (threads s).
Definition set_avatars (f : gmap string wrapper → gmap string wrapper) (s : server) : server :=
  Server (clients s) (f (avatars s)) (wire s) (closed s) (files s) (threads s).
Definition set_wire (f : list (nat * event) → list (nat * event)) (s : server) : server :=
  Server (clients s) (avatars s) (f (wire s)) (closed s) (files s) (threads s).
Definition set_files (f : gset string → gset string) (s : server) : server :=
  Server (clients s) (avatars s) (wire s) (closed s) (f (files s)) (threads s).
Definition set_threads (f : list thread → list thread) (s : server) : server :=
  Server (clients s) (avatars s) (wire s) (closed s) (files s) (f (threads s)).

Definition set_avatar_id (a : option string) (c : client) : client :=
  Client (websocket c) a (audio_queue c) (processing c).
Definition set_audio_queue (q : list bytes) (c : client) : client :=
  Client (websocket c) (avatar_id c) q (processing c).
Definition set_processing (b : bool) (c : client) : client :=
  Client (websocket c) (avatar_id c) (audio_queue c) b.

(** The frames written to one websocket. *)
Definition sent_to (ws : nat) (s : server) : list event :=
  omap (λ p : nat * event, if decide (p.1 = ws) then Some p.2 else None) (wire s).

(** ** State and exception monad *)

(** A computation over a state [S] that returns or raises; the state
    changes made before an exception stay. *)
Definition St (S A : Type) : Type := S → result A * S.

Definition ret {S A} (a : A) : St S A := λ s, (Ok a, s).
Definition raise {S A} (e : exn) : St S A := λ s, (Raise e, s).
Definition bind {S A B} (m : St S A) (k : A → St S B) : St S B :=
  λ s, match m s with
       | (Ok a, s') => k a s'
       | (Raise e, s') => (Raise e, s')
       end.
Definition gets {S A} (f : S → A) : St S A := λ s, (Ok (f s), s).
Definition modify {S} (f : S → S) : St S unit := λ s, (Ok tt, f s).

(** [try: m except Exception as e: h e]. *)
Definition try_except {S A} (m : St S A) (h : exn → St S A) : St S A :=
  λ s, match m s with
       | (Ok a, s') => (Ok a, s')
       | (Raise e, s') => h e s'
       end.

Notation "x <- m ;; k" := (bind m (λ x, k))
  (at level 100, m at next level, right associativity).
Notation "m ;; k" := (bind m (λ _, k))
  (at level 100, right associativity).

(** Computations over the server state. *)
Abbreviation M := (St server).

(** [logger.error(...)] and [logger.info(...)] leave the state alone. *)
Definition log {S} : St S unit := ret tt.

(** ** Sending *)

(** [websocket.send(json.dumps(message))]. *)
Definition websocket_send (ws : nat) (message : event) : M unit :=
  λ s, if decide (ws ∈ closed s)
       then (Raise (Exn ConnectionClosed "connection closed"), s)
       else (Ok tt, set_wire (λ w, w ++ [(ws, message)]) s).

Definition send_message (client_id : string) (message : event) : M unit :=
  try_except
    (cs <- gets clients ;;
     match cs !! client_id with
     | Some c => websocket_send (websocket c) message
     | None => ret tt
     end)
    (λ _, log).

Definition send_error (client_id : string) (error_message : string) : M unit :=
  send_message client_id (error error_message).

(** ** The scheduling call made from threads *)

(** [asyncio.create_task(coro)] runs [coro] on the event loop that is running
    in the calling thread and raises [RuntimeError] when there is none.  The
    server's only loop runs in the main thread; a thread started with
    [threading.Thread] has no running loop, and the coroutine it passed is
    never run. *)
Definition create_task_in_thread {S} (coro : St S unit) : St S unit :=
  raise (Exn RuntimeError "no running event loop").

(** ** MuseTalkWrapper *)

(** [cleanup]: remove the temporary directory if it is there.  The
    destructor [__del__], which calls [cleanup] again when a wrapper object
    is collected, is not modelled: statements about a directory that stays
    concern wrappers the avatar table still holds. *)
Definition wrapper_cleanup (w : wrapper) : M unit :=
  try_except
    (fs <- gets files ;;
     if decide (temp_dir w ∈ fs)
     then modify (set_files (λ f, f ∖ {[temp_dir w]}))
     else ret tt)
    (λ _, log).

(** ** Session registry *)

(** [f"client_{int(time.time() * 1000)}"], with the clock read in
    milliseconds. *)
Definition new_client_id (now_ms : Z) : string := "client_" +:+ pretty now_ms.

Definition new_client (ws : nat) : client := Client ws None [] false.

(** [del self.avatars[k]] and [del self.clients[k]]. *)
Definition del_avatar (k : string) : M unit :=
  λ s, match avatars s !! k with
       | Some _ => (Ok tt, set_avatars (delete k) s)
       | None => (Raise (Exn KeyError k), s)
       end.
Definition del_client (k : string) : M unit :=
  λ s, match clients s !! k with
       | Some _ => (Ok tt, set_clients (delete k) s)
       | None => (Raise (Exn KeyError k), s)
       end.

(** The body of the [try] of [cleanup_client]. *)
Definition cleanup_client_body (client_id : string) : M unit :=
  cs <- gets clients ;;
  match cs !! client_id with
  | Some c =>
      (if truthy_id (avatar_id c) then
         av <- gets avatars ;;
         match av !! default "" (avatar_id c) with
         | Some w => wrapper_cleanup w ;; del_avatar (default "" (avatar_id c))
         | None => ret tt
         end
       else ret tt) ;;
      del_client client_id
  | None => ret tt
  end.

Definition cleanup_client (client_id : string) : M unit :=
  try_except (cleanup_client_body client_id) (λ _, log).

(** What [cleanup_client] leaves of the state. *)
Definition torn_down (client_id : string) (s : server) : server :=
  match clients s !! client_id with
  | None => s
  | Some c =>
      set_clients (delete client_id)
        (if truthy_id (avatar_id c) then
           match avatars s !! default "" (avatar_id c) with
           | Some w =>
               set_avatars (delete (default "" (avatar_id c)))
                 (set_files (λ f, f ∖ {[temp_dir w]}) s)
           | None => s
           end
         else s)
  end.


(** ** Library calls and the surroundings of one handler call *)

(** The library functions the handlers call.  [json_loads] answers [None]
    where [json.loads] raises [JSONDecodeError]; [b64decode] answers [None]
    where [base64.b64decode] raises on a string; [py_str] is the formatting
    of a value inside an f-string; [fd_open] tells whether an integer is an
    open file descriptor (what [os.path.exists] tests on an integer);
    [abspath] is [os.path.abspath], and [files] holds absolute paths. *)
Record env := Env {
  json_loads : string → option json;
  b64decode : string → option bytes;
  b64encode : bytes → string;
  py_str : json → string;
  fd_open : Z → bool;
  abspath : string → string
}.

(** What the clock and [tempfile] answer during one handler call: the clock
    in milliseconds, and the name of the temporary file. *)
Record ambient := Ambient {
  now_ms : Z;
  temp_name : string
}.

(** [data.get(key, default)]: a method of dictionaries only. *)
Definition json_get (data : json) (key : string) (dflt : json) : M json :=
  match data with
  | JObj fields => ret (default dflt (assoc key fields))
  | _ => raise (Exn AttributeError "object has no attribute 'get'")
  end.

(** [message_type == 'literal']. *)
Definition str_eq (v : json) (s : string) : bool :=
  match v with
  | JStr t => String.eqb t s
  | _ => false
  end.

Definition json_loads_m (E : env) (message : string) : M json :=
  match json_loads E message with
  | Some v => ret v
  | None => raise (Exn JSONDecodeError "Expecting value")
  end.

Definition b64decode_m (E : env) (v : json) : M bytes :=
  match v with
  | JStr s =>
      match b64decode E s with
      | Some b => ret b
      | None => raise (Exn BinasciiError "Incorrect padding")
      end
  | _ => raise (Exn TypeError "argument should be a bytes-like object or ASCII string")
  end.

(** [os.path.exists]: a string is looked up, an integer is taken as a file
    descriptor, anything else is a [TypeError]. *)
Definition os_path_exists (E : env) (v : json) : M bool :=
  match v with
  | JStr p => fs <- gets files ;; ret (bool_decide (abspath E p ∈ fs))
  | JNum n => ret (fd_open E n)
  | JBool b => ret (fd_open E (if b then 1 else 0))
  | _ => raise (Exn TypeError "stat: path should be string, bytes, os.PathLike or integer")
  end.

(** [self.clients[client_id]] and an assignment to one of its keys. *)
Definition client_get (client_id : string) : M client :=
  λ s, match clients s !! client_id with
       | Some c => (Ok c, s)
       | None => (Raise (Exn KeyError client_id), s)
       end.
Definition client_update (client_id : string) (f : client → client) : M unit :=
  c <- client_get client_id ;;
  modify (set_clients (<[client_id := f c]>)).

Definition start_thread (t : thread) : M unit :=
  modify (set_threads (λ l, l ++ [t])).

(** ** Connection set-up message handlers *)

Definition new_avatar_id (client_id : string) (now_ms : Z) : string :=
  "avatar_" +:+ client_id +:+ "_" +:+ pretty (now_ms `quot` 1000).

Definition handle_initialize_avatar (E : env) (A : ambient)
    (client_id : string) (data : json) : M unit :=
  try_except
    (avatar_video_data <- json_get data "avatar_video_data" JNull ;;
     avatar_video_path <- json_get data "avatar_video_path" JNull ;;
     version <- json_get data "version" (JStr "v15") ;;
     if negb (truthy avatar_video_data) && negb (truthy avatar_video_path) then
       send_error client_id
         "Either avatar_video_data or avatar_video_path must be provided"
     else
       avatar_video_path <-
         (if truthy avatar_video_data then
            _ <- b64decode_m E avatar_video_data ;;
            modify (set_files (λ f, {[abspath E (temp_name A)]} ∪ f)) ;;
            ret (JStr (temp_name A))
          else ret avatar_video_path) ;;
       found <- os_path_exists E avatar_video_path ;;
       if negb found then
         send_error client_id ("Avatar video not found: " +:+ py_str E avatar_video_path)
       else
         let avatar_id := new_avatar_id client_id (now_ms A) in
         send_message client_id (avatar_initialization_started avatar_id) ;;
         start_thread (InitThread client_id avatar_id avatar_video_path version))
    (λ e, send_error client_id ("Error initializing avatar: " +:+ text e)).

(** [MuseTalkWrapper.__init__]; [dir] is the directory [tempfile.mkdtemp]
    creates. *)
Definition MuseTalkWrapper_init (E : env) (video_path version : json)
    (dir : string) : M wrapper :=
  match video_path with
  | JStr p =>
      modify (set_files (λ f, {[dir]} ∪ f)) ;;
      fs <- gets files ;;
      if negb (bool_decide (abspath E p ∈ fs)) then
        raise (Exn FileNotFoundError ("Avatar video not found: " +:+ abspath E p))
      else if negb (bool_decide (abspath E "scripts/inference.py" ∈ fs)) then
        raise (Exn FileNotFoundError ("MuseTalk project not found at: " +:+ abspath E "."))
      else ret (Wrapper (abspath E p) version dir false)
  | _ => raise (Exn TypeError "expected str, bytes or os.PathLike object")
  end.

(** [prepare_avatar_realtime]; [ok] tells whether the preparation
    subprocess ends with return code 0 in time. *)
Definition prepare_avatar_realtime (ok : bool) (w : wrapper) : bool * wrapper :=
  if avatar_prepared w then (true, w)
  else if ok then (true, Wrapper (avatar_video_path w) (version w) (temp_dir w) true)
  else (false, w).

(** The closure [initialize_avatar], the target of the thread that
    [handle_initialize_avatar] starts. *)
Definition initialize_avatar (E : env) (client_id avatar_id : string)
    (video_path version : json) (dir : string) (ok : bool) : M unit :=
  try_except
    (w <- MuseTalkWrapper_init E video_path version dir ;;
     let r := prepare_avatar_realtime ok w in
     if r.1 then
       modify (set_avatars (<[avatar_id := r.2]>)) ;;
       client_update client_id (set_avatar_id (Some avatar_id)) ;;
       create_task_in_thread (send_message client_id (avatar_initialized avatar_id))
     else
       create_task_in_thread (send_error client_id "Failed to initialize avatar"))
    (λ e, create_task_in_thread
            (send_error client_id ("Avatar initialization error: " +:+ text e))).

(** ** Audio chunks and status *)

Definition handle_audio_chunk (E : env) (client_id : string) (data : json) : M unit :=
  try_except
    (cs <- gets clients ;;
     match cs !! client_id with
     | None => send_error client_id "Client not found"
     | Some c =>
         av <- gets avatars ;;
         if negb (truthy_id (avatar_id c))
            || negb (bool_decide (is_Some (av !! default "" (avatar_id c)))) then
           send_error client_id "Avatar not initialized"
         else
           audio_data <- json_get data "audio_data" JNull ;;
           if negb (truthy audio_data) then
             send_error client_id "No audio data provided"
           else
             audio_bytes <- b64decode_m E audio_data ;;
             client_update client_id
               (λ c, set_audio_queue (audio_queue c ++ [audio_bytes]) c) ;;
             c' <- client_get client_id ;;
             (if negb (processing c') then
                client_update client_id (set_processing true) ;;
                start_thread (QueueThread client_id (default "" (avatar_id c)))
              else ret tt) ;;
             send_message client_id audio_received
     end)
    (λ e, send_error client_id ("Error handling audio chunk: " +:+ text e)).

(** The server after [handle_audio_chunk] accepted chunk [b] for the
    session whose entry was [c]: the chunk is queued, the flag is set and a
    thread started if the flag was cleared, and the acknowledgement is
    written. *)
Definition enqueued (client_id : string) (c : client) (b : bytes) (s : server) : server :=
  let c1 := set_audio_queue (audio_queue c ++ [b]) c in
  let s1 := set_clients (<[client_id := c1]>) s in
  set_wire (λ w, w ++ [(websocket c, audio_received)])
    (if processing c then s1
     else set_threads (λ l, l ++ [QueueThread client_id (default "" (avatar_id c))])
            (set_clients (<[client_id := set_processing true c1]>) s1)).

Definition handle_get_status (client_id : string) : M unit :=
  try_except
    (cs <- gets clients ;;
     match cs !! client_id with
     | None => send_error client_id "Client not found"
     | Some client_info =>
         send_message client_id
           (status client_id
                   (bool_decide (is_Some (avatar_id client_info)))
                   (avatar_id client_info)
                   (length (audio_queue client_info))
                   (processing client_info))
     end)
    (λ e, send_error client_id ("Error getting status: " +:+ text e)).

(** ** Message router *)

Definition handle_message (E : env) (A : ambient) (client_id : string)
    (message : string) : M unit :=
  try_except
    (data <- json_loads_m E message ;;
     message_type <- json_get data "type" JNull ;;
     if str_eq message_type "initialize_avatar" then
       handle_initialize_avatar E A client_id data
     else if str_eq message_type "audio_chunk" then
       handle_audio_chunk E client_id data
     else if str_eq message_type "get_status" then
       handle_get_status client_id
     else
       send_error client_id ("Unknown message type: " +:+ py_str E message_type))
    (λ e, match kind e with
          | JSONDecodeError => send_error client_id "Invalid JSON message"
          | _ => send_error client_id ("Error processing message: " +:+ text e)
          end).

(** The kinds of the dispatch table. *)
Definition known_kind (v : json) : bool :=
  str_eq v "initialize_avatar" || str_eq v "audio_chunk" || str_eq v "get_status".

(** The frames the router answers with an error of its own: not JSON, JSON
    that is not a dictionary, or a [type] outside the dispatch table. *)
Definition rejected_by_router (E : env) (message : string) : bool :=
  match json_loads E message with
  | None => true
  | Some (JObj fields) => negb (known_kind (default JNull (assoc "type" fields)))
  | Some _ => true
  end.

(** The [avatar_id] of every registered session. *)
Definition bindings (s : server) : gmap string (option string) :=
  avatar_id <$> clients s.

(** A computation keeps a property of the server state, whether it returns
    or raises. *)
Definition keeps {A} (I : server → Prop) (m : M A) : Prop :=
  ∀ s, I s → I (m s).2.

(** ** One connection *)

Fixpoint serve (E : env) (client_id : string) (inbox : list (ambient * string)) : M unit :=
  match inbox with
  | [] => ret tt
  | (A, message) :: rest => handle_message E A client_id message ;; serve E client_id rest
  end.

(** [register_client]: [now] is the clock at connection time and [inbox]
    the frames read until the connection ends. *)
Definition register_client (E : env) (ws : nat) (now : Z)
    (inbox : list (ambient * string)) : M string :=
  let client_id := new_client_id now in
  modify (set_clients (<[client_id := new_client ws]>)) ;;
  try_except
    (websocket_send ws (connection_established client_id) ;;
     serve E client_id inbox)
    (λ _, log) ;;
  cleanup_client client_id ;;
  ret client_id.



(** ** The audio pipeline of one session

    The entry [self.clients[client_id]] of a session whose avatar is ready,
    seen from the two sides that share it: [handle_audio_chunk], which runs on
    the event loop, and the threads whose target is [process_audio_queue].
    Each transition is one statement of one side, so the traces of the system
    are the interleavings of the two. *)

(** Where the handler stands: [HCheck] before [if not ...['processing']],
    [HSet] before the assignment of [True], [HStart] before
    [threading.Thread(...).start()], [HAck] before the [audio_received]
    frame. *)
Inductive handler_pc := HIdle | HCheck | HSet | HStart | HAck.

(** Where a worker stands: [WLoop] before the test of the [while], [WGet]
    before [audio_queue.get(timeout=1)], [WBusy] with the chunk it got, in
    the rest of the loop body, [WFinally] before the [finally] clause. *)
Inductive worker_pc :=
| WLoop
| WGet
| WBusy (audio_bytes : bytes)
| WFinally.

(** What the generation does for one chunk: [Generated] when
    [generate_video_from_audio] returns the path of an existing file with
    these contents, [NoVideo] when it returns [None] or a path that does not
    exist, [Crashed] when a statement of the loop body raises (writing the
    WAV file, reading the video). *)
Inductive generation :=
| Generated (video_data : bytes)
| NoVideo
| Crashed (e : exn).

(** [arrived] and [taken] record the chunks put into and got from the queue,
    oldest first; [sent] the frames written to the session's websocket. *)
Record pipeline := Pipeline {
  session : client;
  handler : handler_pc;
  workers : list worker_pc;
  sent : list event;
  arrived : list bytes;
  taken : list bytes
}.

Definition set_session (f : client → client) (p : pipeline) : pipeline :=
  Pipeline (f (session p)) (handler p) (workers p) (sent p) (arrived p) (taken p).
Definition set_handler (h : handler_pc) (p : pipeline) : pipeline :=
  Pipeline (session p) h (workers p) (sent p) (arrived p) (taken p).
Definition set_workers (f : list worker_pc → list worker_pc) (p : pipeline) : pipeline :=
  Pipeline (session p) (handler p) (f (workers p)) (sent p) (arrived p) (taken p).
Definition set_sent (f : list event → list event) (p : pipeline) : pipeline :=
  Pipeline (session p) (handler p) (workers p) (f (sent p)) (arrived p) (taken p).
Definition set_arrived (f : list bytes → list bytes) (p : pipeline) : pipeline :=
  Pipeline (session p) (handler p) (workers p) (sent p) (f (arrived p)) (taken p).
Definition set_taken (f : list bytes → list bytes) (p : pipeline) : pipeline :=
  Pipeline (session p) (handler p) (workers p) (sent p) (arrived p) (f (taken p)).

(** [send_message] for this session: its entry is registered and its
    websocket open. *)
Definition deliver (message : event) : St pipeline unit :=
  modify (set_sent (λ l, l ++ [message])).

(** [audio_queue.put(audio_bytes)]. *)
Definition queue_put (audio_bytes : bytes) : St pipeline unit :=
  modify (set_session (λ c, set_audio_queue (audio_queue c ++ [audio_bytes]) c)) ;;
  modify (set_arrived (λ l, l ++ [audio_bytes])).

(** The statement of [handle_audio_chunk] at [pc], from the [put] on. *)
Definition handler_stmt (pc : handler_pc) : St pipeline handler_pc :=
  match pc with
  | HIdle => ret HIdle
  | HCheck =>
      c <- gets session ;;
      ret (if negb (processing c) then HSet else HAck)
  | HSet =>
      modify (set_session (set_processing true)) ;;
      ret HStart
  | HStart =>
      modify (set_workers (λ l, l ++ [WLoop])) ;;
      ret HAck
  | HAck =>
      deliver audio_received ;;
      ret HIdle
  end.

(** The body of the inner [try] of [process_audio_queue] after the [get],
    with its [except Exception] clause; [now] is the clock read for the
    frame's timestamp. *)
Definition process_chunk (E : env) (now : Z) (audio_bytes : bytes)
    (g : generation) : St pipeline unit :=
  try_except
    (match g with
     | Crashed e => raise e
     | Generated video_data =>
         create_task_in_thread
           (deliver (video_chunk (b64encode E video_data) now))
     | NoVideo =>
         create_task_in_thread (deliver (error "Failed to generate video"))
     end)
    (λ e, log ;;
          create_task_in_thread
            (deliver (error ("Audio processing error: " +:+ text e)))).

(** The statement of [process_audio_queue] at [pc]; the answer is the next
    position, [None] when the thread has ended. *)
Definition worker_stmt (E : env) (now : Z) (g : generation)
    (pc : worker_pc) : St pipeline (option worker_pc) :=
  match pc with
  | WLoop =>
      c <- gets session ;;
      ret (Some (match audio_queue c with [] => WFinally | _ => WGet end))
  | WGet =>
      c <- gets session ;;
      match audio_queue c with
      | audio_bytes :: rest =>
          modify (set_session (set_audio_queue rest)) ;;
          modify (set_taken (λ l, l ++ [audio_bytes])) ;;
          ret (Some (WBusy audio_bytes))
      | [] => ret (Some WFinally)
      end
  | WBusy audio_bytes =>
      process_chunk E now audio_bytes g ;;
      ret (Some WLoop)
  | WFinally =>
      modify (set_session (set_processing false)) ;;
      ret None
  end.

(** One statement of a worker under the outer [try]: an exception that
    leaves the loop is logged and control passes to the [finally] clause. *)
Definition worker_step (E : env) (now : Z) (g : generation)
    (pc : worker_pc) (p : pipeline) : option worker_pc * pipeline :=
  match worker_stmt E now g pc p with
  | (Ok pc', p') => (pc', p')
  | (Raise _, p') => (Some WFinally, p')
  end.

(** [Arrive b]: the handler, having validated and decoded a chunk, puts it;
    [Handle]: the handler runs its next statement; [Work i now g]: worker
    [i] runs its next statement. *)
Inductive label :=
| Arrive (audio_bytes : bytes)
| Handle
| Work (i : nat) (now : Z) (g : generation).

Definition step (E : env) (l : label) (p : pipeline) : option pipeline :=
  match l with
  | Arrive audio_bytes =>
      match handler p with
      | HIdle => Some (set_handler HCheck (queue_put audio_bytes p).2)
      | _ => None
      end
  | Handle =>
      match handler p with
      | HIdle => None
      | pc =>
          match handler_stmt pc p with
          | (Ok pc', p') => Some (set_handler pc' p')
          | (Raise _, p') => Some (set_handler HIdle p')
          end
      end
  | Work i now g =>
      match workers p !! i with
      | None => None
      | Some pc =>
          match worker_step E now g pc p with
          | (Some pc', p') => Some (set_workers (λ l, <[i := pc']> l) p')
          | (None, p') => Some (set_workers (λ l, delete i l) p')
          end
      end
  end.

Fixpoint run (E : env) (tr : list label) (p : pipeline) : option pipeline :=
  match tr with
  | [] => Some p
  | l :: rest =>
      match step E l p with
      | Some p' => run E rest p'
      | None => None
      end
  end.

(** A session right after its avatar became ready. *)
Definition ready (ws : nat) (avatar : string) : pipeline :=
  Pipeline (set_avatar_id (Some avatar) (new_client ws)) HIdle [] [] [] [].

(** Generations in flight: workers inside the loop body. *)
Definition generating (pc : worker_pc) : bool :=
  match pc with WBusy _ => true | _ => false end.
Definition in_flight (p : pipeline) : nat :=
  length (List.filter generating (workers p)).

(** A chunk is stranded: the queue holds one, the flag is cleared, no worker
    lives and the handler is not about to start one. *)
Definition stranded (p : pipeline) : bool :=
  match audio_queue (session p), workers p, handler p with
  | _ :: _, [], HIdle => negb (processing (session p))
  | _, _, _ => false
  end.

(** The invariant behind the one-worker discipline: at most one worker
    lives; a cleared flag means no worker; the handler is between reading
    the flag as cleared and starting the thread only while no worker
    lives. *)
Definition one_worker (p : pipeline) : Prop :=
  (length (workers p) ≤ 1)%nat
  ∧ (processing (session p) = false → workers p = [])
  ∧ (handler p = HSet → processing (session p) = false)
  ∧ (handler p = HStart → processing (session p) = true ∧ workers p = []).

(** ** A small concrete world

    A library environment, a clock reading, server states and traces on
    which the handlers and the pipeline are run. *)

Definition demo_env : env :=
  Env (λ _, None) (λ _, Some [Byte.x00; Byte.x00; Byte.x00])
      (λ _, "AAAA") (λ _, "?") (λ _, false) (λ p, p).

Definition demo_ambient : ambient := Ambient 1700000000123 "/tmp/tmpvideo.mp4".

(** One client, connected on websocket 1, no avatar yet. *)
Definition demo_server : server :=
  Server {["client_1" := new_client 1]} ∅ [] ∅
         {["/data/video.mp4"; "scripts/inference.py"]} [].

Definition demo_wrapper : wrapper :=
  Wrapper "/data/video.mp4" (JStr "v15") "/tmp/musetalk_wrapper_a" true.

(** The same client with a first avatar bound. *)
Definition bound_server : server :=
  Server {["client_1" := set_avatar_id (Some "avatar_client_1_1700000000") (new_client 1)]}
         {["avatar_client_1_1700000000" := demo_wrapper]} [] ∅
         {["/data/video.mp4"; "scripts/inference.py"; "/tmp/musetalk_wrapper_a"]} [].

Definition chunk1 : bytes := [Byte.x01].
Definition chunk2 : bytes := [Byte.x02].
Definition chunk3 : bytes := [Byte.x03].

(** A request that carries both video fields. *)
Definition both_fields_request : json :=
  JObj [("type", JStr "initialize_avatar");
        ("avatar_video_data", JStr "AAAA");
        ("avatar_video_path", JStr "/data/video.mp4")].

(** [bound_server] after a second initialization succeeded, a minute after
    the first. *)
Definition rebound_server : server :=
  (initialize_avatar demo_env "client_1" "avatar_client_1_1700000060"
     (JStr "/data/video.mp4") (JStr "v15") "/tmp/musetalk_wrapper_b" true
     bound_server).2.

(** Three chunks arrive, the handler finishing each time, and then the one
    worker runs until it ends, every generation succeeding. *)
Definition three_chunks : list label :=
  [Arrive chunk1; Handle; Handle; Handle; Handle;
   Arrive chunk2; Handle; Handle;
   Arrive chunk3; Handle; Handle;
   Work 0 1700000001000 (Generated [Byte.x2a]);
   Work 0 1700000001000 (Generated [Byte.x2a]);
   Work 0 1700000001000 (Generated [Byte.x2a]);
   Work 0 1700000001000 (Generated [Byte.x2a])].

(** The second chunk arrives while the worker stands before its [finally]
    clause. *)
Definition late_arrival : list label :=
  [Arrive chunk1; Handle; Handle; Handle; Handle;
   Work 0 1700000001000 (Generated [Byte.x2a]);
   Work 0 1700000001000 (Generated [Byte.x2a]);
   Work 0 1700000001000 (Generated [Byte.x2a]);
   Arrive chunk2; Handle;
   Work 0 1700000002000 (Generated [Byte.x2a]);
   Handle].

(** Two chunks are queued before the worker takes the first. *)
Definition two_queued : list label :=
  [Arrive chunk1; Handle; Handle; Handle; Handle;
   Arrive chunk2; Handle; Handle;
   Work 0 1700000001000 (Generated [Byte.x2a]);
   Work 0 1700000001000 (Generated [Byte.x2a]);
   Work 0 1700000001000 (Generated [Byte.x2a]);
   Work 0 1700000001000 (Generated [Byte.x2a])].

(** * Properties *)

(** ** Sending never raises *)

Lemma send_message_open client_id message s c :
  clients s !! client_id = Some c →
  websocket c ∉ closed s →
  send_message client_id message s
  = (Ok tt, set_wire (λ w, w ++ [(websocket c, message)]) s).
Proof.
  intros Hc Hopen.
  unfold send_message, try_except, bind, gets, websocket_send.
  rewrite Hc. by rewrite decide_False.
Qed.

Lemma send_message_cases client_id message s :
  send_message client_id message s = (Ok tt, s)
  ∨ ∃ c, clients s !! client_id = Some c ∧ (websocket c ∉ closed s)
       ∧ send_message client_id message s
         = (Ok tt, set_wire (λ w, w ++ [(websocket c, message)]) s).
Proof.
  destruct (clients s !! client_id) as [c|] eqn:Hc.
  - destruct (decide (websocket c ∈ closed s)) as [Hin|Hout].
    + left. unfold send_message, try_except, bind, gets, websocket_send.
      rewrite Hc. by rewrite decide_True.
    + right. exists c. split; [done|]. split; [done|].
      by apply send_message_open.
  - left. unfold send_message, try_except, bind, gets. by rewrite Hc.
Qed.

Lemma send_message_ok client_id message s :
  (send_message client_id message s).1 = Ok tt.
Proof.
  destruct (send_message_cases client_id message s) as [->|(c & _ & _ & ->)]; done.
Qed.

Lemma send_message_tables client_id message s :
  let s' := (send_message client_id message s).2 in
  clients s' = clients s ∧ avatars s' = avatars s ∧ files s' = files s
  ∧ threads s' = threads s ∧ closed s' = closed s.
Proof.
  destruct (send_message_cases client_id message s) as [->|(c & _ & _ & ->)]; done.
Qed.

(** ** Teardown *)

Lemma wrapper_cleanup_spec w s :
  wrapper_cleanup w s = (Ok tt, set_files (λ f, f ∖ {[temp_dir w]}) s).
Proof.
  unfold wrapper_cleanup, try_except, bind, gets, modify, ret.
  destruct (decide (temp_dir w ∈ files s)) as [Hin|Hout]; [done|].
  destruct s as [cs av wi cl fs th]; unfold set_files; simpl in *.
  do 2 f_equal. set_solver.
Qed.

Lemma cleanup_client_body_spec client_id s :
  cleanup_client_body client_id s = (Ok tt, torn_down client_id s).
Proof.
  unfold cleanup_client_body, torn_down, bind, gets.
  destruct (clients s !! client_id) as [c|] eqn:Hc; [|done].
  destruct (truthy_id (avatar_id c)); simpl.
  - destruct (avatars s !! default "" (avatar_id c)) as [w|] eqn:Hw; simpl.
    + rewrite wrapper_cleanup_spec. unfold del_avatar, del_client. simpl.
      rewrite Hw. simpl. by rewrite Hc.
    + unfold ret, del_client. by rewrite Hc.
  - unfold ret, del_client. by rewrite Hc.
Qed.

Lemma cleanup_client_spec client_id s :
  cleanup_client client_id s = (Ok tt, torn_down client_id s).
Proof. unfold cleanup_client, try_except. by rewrite cleanup_client_body_spec. Qed.

Lemma torn_down_gone client_id s : clients (torn_down client_id s) !! client_id = None.
Proof.
  unfold torn_down. destruct (clients s !! client_id) as [c|] eqn:Hc; [|done].
  destruct (truthy_id (avatar_id c)); [destruct (avatars s !! _)|]; simpl;
    apply lookup_delete_eq.
Qed.

Lemma torn_down_wire client_id s : wire (torn_down client_id s) = wire s.
Proof.
  unfold torn_down. destruct (clients s !! client_id) as [c|]; [|done].
  destruct (truthy_id (avatar_id c)); [destruct (avatars s !! _)|]; done.
Qed.

(** C10.  Tearing a session down raises nothing and sends nothing, with or
    without the [try] around it; it removes the registry entry; it deletes a
    bound avatar from the avatar table and removes its temporary directory;
    for a session that never bound an avatar it leaves the avatar table and
    the files alone; and a second teardown changes nothing at all. *)
Theorem cleanup_client_idempotent client_id s :
  let s' := torn_down client_id s in
  cleanup_client_body client_id s = (Ok tt, s')
  ∧ cleanup_client client_id s = (Ok tt, s')
  ∧ wire s' = wire s
  ∧ clients s' !! client_id = None
  ∧ cleanup_client client_id s' = (Ok tt, s')
  ∧ (∀ c a w, clients s !! client_id = Some c → avatar_id c = Some a →
              a ≠ "" → avatars s !! a = Some w →
              avatars s' !! a = None ∧ (temp_dir w ∉ files s'))
  ∧ (∀ c, clients s !! client_id = Some c → avatar_id c = None →
          avatars s' = avatars s ∧ files s' = files s).
Proof.
  simpl. split; [apply cleanup_client_body_spec|].
  split; [apply cleanup_client_spec|].
  split; [apply torn_down_wire|].
  split; [apply torn_down_gone|].
  split.
  { rewrite cleanup_client_spec. f_equal.
    unfold torn_down at 1. by rewrite torn_down_gone. }
  split.
  - intros c a w Hc Ha Hne Hw. unfold torn_down. rewrite Hc, Ha. simpl.
    assert (String.eqb a "" = false) as -> by (by apply String.eqb_neq).
    simpl. rewrite Hw. simpl. split; [apply lookup_delete_eq|set_solver].
  - intros c Hc Ha. unfold torn_down. rewrite Hc, Ha. done.
Qed.

Lemma cleanup_client_idempotent_witness :
  cleanup_client "client_1" bound_server = (Ok tt, torn_down "client_1" bound_server)
  ∧ cleanup_client "client_1" (torn_down "client_1" bound_server)
    = (Ok tt, torn_down "client_1" bound_server)
  ∧ avatars (torn_down "client_1" bound_server) !! "avatar_client_1_1700000000" = None
  ∧ (temp_dir demo_wrapper ∉ files (torn_down "client_1" bound_server)).
Proof.
  destruct (cleanup_client_idempotent "client_1" bound_server)
    as (_ & H1 & _ & _ & H2 & H3 & _).
  split; [exact H1|]. split; [exact H2|].
  apply (H3 (set_avatar_id (Some "avatar_client_1_1700000000") (new_client 1))
            "avatar_client_1_1700000000" demo_wrapper);
    [reflexivity | reflexivity | discriminate | reflexivity].
Defined.

(** ** Session ids *)


(** A [try] whose [except] clause only logs never raises. *)
Lemma try_except_log_ok {S} (m : St S unit) (s : S) :
  (try_except m (λ _, log) s).1 = Ok tt.
Proof. unfold try_except. by destruct (m s) as [[[]|e] s']. Qed.

(** [register_client] hands out the id that [open_session] computes, and
    never raises. *)
Lemma register_client_id E ws now inbox s :
  (register_client E ws now inbox s).1 = Ok (new_client_id now).
Proof.
  unfold register_client, bind at 1 2, modify.
  match goal with |- context [try_except ?m ?h ?s0] =>
    pose proof (try_except_log_ok m s0) as Hok;
    destruct (try_except m h s0) as [r s1] end.
  simpl in Hok. subst r. unfold bind. by rewrite cleanup_client_spec.
Qed.




(** ** Audio before the avatar is ready *)

(** C8.  A session whose [avatar_id] is still [None] (no initialization has
    succeeded for it) answers an audio chunk with one error frame on its
    websocket and changes nothing else: the queue, the flag, the tables and
    the list of started threads stay as they are. *)
Theorem audio_chunk_before_avatar E client_id data s c :
  clients s !! client_id = Some c →
  avatar_id c = None →
  websocket c ∉ closed s →
  let s' := (handle_audio_chunk E client_id data s).2 in
  handle_audio_chunk E client_id data s
  = (Ok tt, set_wire (λ w, w ++ [(websocket c, error "Avatar not initialized")]) s)
  ∧ clients s' !! client_id = Some c
  ∧ threads s' = threads s
  ∧ List.filter is_error (sent_to (websocket c) s')
    = List.filter is_error (sent_to (websocket c) s) ++ [error "Avatar not initialized"].
Proof.
  intros Hc Hnone Hopen.
  assert (handle_audio_chunk E client_id data s
    = (Ok tt, set_wire (λ w, w ++ [(websocket c, error "Avatar not initialized")]) s))
    as Heq.
  { unfold handle_audio_chunk, try_except, bind at 1, gets at 1.
    rewrite Hc. unfold bind, gets. rewrite Hnone. simpl.
    unfold send_error. by rewrite (send_message_open _ _ _ c). }
  simpl. rewrite Heq. simpl. repeat split; [done|].
  unfold sent_to. simpl. rewrite omap_app, List.filter_app. simpl.
  by rewrite decide_True.
Qed.

Lemma audio_chunk_before_avatar_witness :
  handle_audio_chunk demo_env "client_1"
    (JObj [("type", JStr "audio_chunk"); ("audio_data", JStr "AAAA")]) demo_server
  = (Ok tt,
     set_wire (λ w, w ++ [(1%nat, error "Avatar not initialized")]) demo_server).
Proof.
  apply (audio_chunk_before_avatar demo_env "client_1"
           (JObj [("type", JStr "audio_chunk"); ("audio_data", JStr "AAAA")])
           demo_server (new_client 1));
    [reflexivity | reflexivity | vm_compute; set_solver].
Defined.

(** ** Router *)

Lemma send_error_ok client_id m s : (send_error client_id m s).1 = Ok tt.
Proof. apply send_message_ok. Qed.

(** A [try] whose [except] clause sends an error frame never raises. *)
Lemma try_send_error_ok (m : M unit) client_id (f : exn → string) s :
  (try_except m (λ e, send_error client_id (f e)) s).1 = Ok tt.
Proof.
  unfold try_except. destruct (m s) as [[[]|e] s']; [done|]. apply send_error_ok.
Qed.

Lemma handle_initialize_avatar_ok E A client_id data s :
  (handle_initialize_avatar E A client_id data s).1 = Ok tt.
Proof. apply try_send_error_ok. Qed.

Lemma handle_audio_chunk_ok E client_id data s :
  (handle_audio_chunk E client_id data s).1 = Ok tt.
Proof. apply try_send_error_ok. Qed.

Lemma handle_get_status_ok client_id s :
  (handle_get_status client_id s).1 = Ok tt.
Proof. apply try_send_error_ok. Qed.

(** No inbound frame makes the router raise into the connection loop. *)
Lemma handle_message_ok E A client_id message s :
  (handle_message E A client_id message s).1 = Ok tt.
Proof.
  unfold handle_message, try_except.
  destruct (bind _ _ s) as [[[]|e] s']; [done|].
  destruct (kind e); apply send_error_ok.
Qed.

(** C9.  A frame that is not JSON, is JSON but not a dictionary, or whose
    [type] is none of the three kinds of the dispatch table, makes the router
    write one error frame to the sender and change nothing else; it does not
    raise, so the connection loop goes on with the next frame, in a state
    where the session is registered as before. *)
Theorem rejected_message_yields_error E A client_id message s c :
  clients s !! client_id = Some c →
  websocket c ∉ closed s →
  rejected_by_router E message = true →
  ∃ reason,
    let s' := set_wire (λ w, w ++ [(websocket c, error reason)]) s in
    handle_message E A client_id message s = (Ok tt, s')
    ∧ clients s' = clients s
    ∧ (∀ rest, serve E client_id ((A, message) :: rest) s = serve E client_id rest s').
Proof.
  intros Hc Hopen Hrej.
  assert (∃ reason, handle_message E A client_id message s
           = (Ok tt, set_wire (λ w, w ++ [(websocket c, error reason)]) s))
    as [reason Heq].
  { unfold rejected_by_router in Hrej.
    unfold handle_message, try_except, bind at 1, json_loads_m.
    destruct (json_loads E message) as [v|] eqn:Hv.
    - destruct v as [|b|n|t|items|fields];
        try (eexists; unfold ret, bind, json_get, raise; simpl; unfold send_error;
             by rewrite (send_message_open _ _ _ c)).
      unfold ret, bind, json_get. simpl.
      apply negb_true_iff in Hrej. unfold known_kind in Hrej.
      apply orb_false_iff in Hrej as [Hrej H3].
      apply orb_false_iff in Hrej as [H1 H2].
      rewrite H1, H2, H3. eexists. unfold send_error.
      by rewrite (send_message_open _ _ _ c).
    - eexists. unfold raise. simpl. unfold send_error.
      by rewrite (send_message_open _ _ _ c). }
  exists reason. simpl. split; [done|]. split; [done|].
  intros rest. simpl. unfold bind. by rewrite Heq.
Qed.

Lemma rejected_message_yields_error_witness :
  ∃ reason,
    handle_message demo_env demo_ambient "client_1" "{not json" demo_server
    = (Ok tt, set_wire (λ w, w ++ [(1%nat, error reason)]) demo_server).
Proof.
  destruct (rejected_message_yields_error demo_env demo_ambient "client_1"
              "{not json" demo_server (new_client 1))
    as (reason & H & _);
    [reflexivity | vm_compute; set_solver | reflexivity |].
  exists reason. exact H.
Defined.

(** ** Bindings change by initialization only *)

Lemma keeps_ret {A} I (a : A) : keeps I (ret a).
Proof. by intros s. Qed.

Lemma keeps_raise {A} I e : keeps I (raise (A := A) e).
Proof. by intros s. Qed.

Lemma keeps_gets {A} I (f : server → A) : keeps I (gets f).
Proof. by intros s. Qed.

Lemma keeps_bind {A B} I (m : M A) (k : A → M B) :
  keeps I m → (∀ a, keeps I (k a)) → keeps I (bind m k).
Proof.
  intros Hm Hk s Hs. unfold bind. specialize (Hm s Hs).
  destruct (m s) as [[a|e] s1]; simpl in *; [by apply Hk|done].
Qed.

Lemma keeps_try_except {A} I (m : M A) (h : exn → M A) :
  keeps I m → (∀ e, keeps I (h e)) → keeps I (try_except m h).
Proof.
  intros Hm Hh s Hs. unfold try_except. specialize (Hm s Hs).
  destruct (m s) as [[a|e] s1]; simpl in *; [done|by apply Hh].
Qed.

Lemma keeps_modify I (f : server → server) :
  (∀ s, I s → I (f s)) → keeps I (modify f).
Proof. intros Hf s Hs. by apply Hf. Qed.

Lemma keeps_send_message b client_id message :
  keeps (λ s, bindings s = b) (send_message client_id message).
Proof.
  intros s Hs. unfold bindings in *.
  by destruct (send_message_tables client_id message s) as (-> & _).
Qed.

Lemma keeps_client_update b client_id (f : client → client) :
  (∀ c, avatar_id (f c) = avatar_id c) →
  keeps (λ s, bindings s = b) (client_update client_id f).
Proof.
  intros Hf s Hs. unfold client_update, bind, client_get.
  destruct (clients s !! client_id) as [c|] eqn:Hc; [|done].
  simpl. unfold bindings in *. simpl. rewrite fmap_insert, Hf.
  rewrite insert_id; [done|]. by rewrite lookup_fmap, Hc.
Qed.

(** Computations that only read. *)
Lemma keeps_json_get I data key dflt : keeps I (json_get data key dflt).
Proof. intros s Hs. by destruct data. Qed.

Lemma keeps_json_loads_m I E message : keeps I (json_loads_m E message).
Proof. intros s Hs. unfold json_loads_m. by destruct (json_loads E message). Qed.

Lemma keeps_b64decode_m I E v : keeps I (b64decode_m E v).
Proof.
  intros s Hs. unfold b64decode_m.
  destruct v; try done. by destruct (b64decode E s0).
Qed.

Lemma keeps_os_path_exists I E v : keeps I (os_path_exists E v).
Proof. intros s Hs. by destruct v. Qed.

Lemma keeps_client_get I client_id : keeps I (client_get client_id).
Proof. intros s Hs. unfold client_get. by destruct (clients s !! client_id). Qed.

Ltac keeps_tac :=
  repeat first
    [ apply keeps_send_message
    | (apply keeps_client_update; by intros [])
    | apply keeps_json_get
    | apply keeps_json_loads_m
    | apply keeps_b64decode_m
    | apply keeps_os_path_exists
    | apply keeps_client_get
    | apply keeps_ret
    | apply keeps_raise
    | apply keeps_gets
    | apply keeps_try_except
    | apply keeps_bind
    | (apply keeps_modify; by intros [])
    | match goal with
      | |- keeps _ (match ?x with _ => _ end) => destruct x
      | |- ∀ _, _ => intro
      end
    | progress unfold send_error, start_thread, log ].

Lemma keeps_handle_initialize_avatar b E A client_id data :
  keeps (λ s, bindings s = b) (handle_initialize_avatar E A client_id data).
Proof. unfold handle_initialize_avatar. keeps_tac. Qed.

Lemma keeps_handle_audio_chunk b E client_id data :
  keeps (λ s, bindings s = b) (handle_audio_chunk E client_id data).
Proof. unfold handle_audio_chunk. keeps_tac. Qed.

Lemma keeps_handle_get_status b client_id :
  keeps (λ s, bindings s = b) (handle_get_status client_id).
Proof. unfold handle_get_status. keeps_tac. Qed.

Lemma keeps_handle_message b E A client_id message :
  keeps (λ s, bindings s = b) (handle_message E A client_id message).
Proof.
  unfold handle_message.
  repeat first
    [ apply keeps_handle_initialize_avatar
    | apply keeps_handle_audio_chunk
    | apply keeps_handle_get_status
    | keeps_tac ].
Qed.

(** Whatever frames a connection sends, the message handlers leave every
    session's [avatar_id] as it was: a session that starts unbound stays
    unbound until an initialization thread succeeds. *)
Lemma serve_keeps_bindings E client_id inbox s :
  bindings (serve E client_id inbox s).2 = bindings s.
Proof.
  revert s. induction inbox as [|[A message] rest IH]; intros s; [done|].
  simpl. unfold bind.
  pose proof (keeps_handle_message (bindings s) E A client_id message s eq_refl) as Hk.
  pose proof (handle_message_ok E A client_id message s) as Hok.
  destruct (handle_message E A client_id message s) as [r s1]. simpl in *.
  subst r. by rewrite IH.
Qed.

(** ** Avatar initialization requests *)

Lemma str_truthy d : d ≠ "" → truthy (JStr d) = true.
Proof. intros H. simpl. apply negb_true_iff. by apply String.eqb_neq. Qed.

(** C7, as stated, fails: a request with both video fields is not rejected.
    The handler decodes [avatar_video_data], announces the initialization
    and starts the thread on the temporary file; no error frame is sent. *)
Lemma both_video_fields_accepted :
  sent_to 1 (handle_initialize_avatar demo_env demo_ambient "client_1"
               both_fields_request demo_server).2
  = [avatar_initialization_started "avatar_client_1_1700000000"]
  ∧ threads (handle_initialize_avatar demo_env demo_ambient "client_1"
               both_fields_request demo_server).2
    = [InitThread "client_1" "avatar_client_1_1700000000"
         (JStr "/tmp/tmpvideo.mp4") (JStr "v15")].
Proof. vm_compute. done. Qed.

(** C7, amended.  At least one of the two video fields must be given.  With
    neither, the handler sends one error frame and does nothing else: no
    thread is started and the avatar table is untouched.  With
    [avatar_video_data] given and decodable, whatever [avatar_video_path]
    is, the handler announces the initialization and starts the thread on
    the temporary file.  With only [avatar_video_path] given, naming an
    existing file, it does the same on that path. *)
Theorem video_field_required E A client_id fields s c :
  clients s !! client_id = Some c →
  websocket c ∉ closed s →
  let data := JObj fields in
  let video_data := default JNull (assoc "avatar_video_data" fields) in
  let video_path := default JNull (assoc "avatar_video_path" fields) in
  let version := default (JStr "v15") (assoc "version" fields) in
  let avatar := new_avatar_id client_id (now_ms A) in
  let started := (websocket c, avatar_initialization_started avatar) in
  (truthy video_data = false → truthy video_path = false →
     handle_initialize_avatar E A client_id data s
     = (Ok tt,
        set_wire (λ w, w ++ [(websocket c,
          error "Either avatar_video_data or avatar_video_path must be provided")]) s))
  ∧ (∀ d b, video_data = JStr d → d ≠ "" → b64decode E d = Some b →
       handle_initialize_avatar E A client_id data s
       = (Ok tt,
          set_threads (λ l, l ++ [InitThread client_id avatar (JStr (temp_name A)) version])
            (set_wire (λ w, w ++ [started])
               (set_files (λ f, {[abspath E (temp_name A)]} ∪ f) s))))
  ∧ (∀ p, truthy video_data = false → video_path = JStr p → p ≠ "" →
          abspath E p ∈ files s →
       handle_initialize_avatar E A client_id data s
       = (Ok tt,
          set_threads (λ l, l ++ [InitThread client_id avatar (JStr p) version])
            (set_wire (λ w, w ++ [started]) s))).
Proof.
  intros Hc Hopen. simpl. repeat split.
  - intros Hd Hp.
    unfold handle_initialize_avatar, try_except, bind, json_get, ret.
    rewrite Hd, Hp. simpl. unfold send_error.
    by rewrite (send_message_open _ _ _ c).
  - intros d b Hd Hne Hb.
    unfold handle_initialize_avatar, try_except, bind, json_get, ret.
    rewrite Hd, (str_truthy d Hne). simpl. rewrite Hb.
    unfold modify, gets. simpl.
    rewrite bool_decide_eq_true_2 by set_solver. simpl.
    by rewrite (send_message_open _ _ _ c).
  - intros p Hd Hp Hne Hex.
    unfold handle_initialize_avatar, try_except, bind, json_get, ret.
    rewrite Hd, Hp, (str_truthy p Hne). simpl.
    unfold gets. rewrite bool_decide_eq_true_2 by done. simpl.
    by rewrite (send_message_open _ _ _ c).
Qed.

Lemma video_field_required_witness :
  handle_initialize_avatar demo_env demo_ambient "client_1"
    (JObj [("type", JStr "initialize_avatar")]) demo_server
  = (Ok tt,
     set_wire (λ w, w ++ [(1%nat,
       error "Either avatar_video_data or avatar_video_path must be provided")])
       demo_server).
Proof.
  apply (video_field_required demo_env demo_ambient "client_1"
           [("type", JStr "initialize_avatar")] demo_server (new_client 1));
    [reflexivity | vm_compute; set_solver | reflexivity | reflexivity].
Defined.

(** ** Rebinding an avatar *)

(** C5, as stated, fails: after a second successful initialization the
    session is bound to the new avatar, but the avatar bound before is still
    in the avatar table and its temporary directory still exists. *)
Lemma rebind_keeps_previous_avatar :
  avatar_id <$> clients rebound_server !! "client_1"
  = Some (Some "avatar_client_1_1700000060")
  ∧ avatars rebound_server !! "avatar_client_1_1700000000" = Some demo_wrapper
  ∧ temp_dir demo_wrapper ∈ files rebound_server.
Proof. vm_compute. split; [done|]. split; [done|]. set_solver. Qed.

(** C5, amended.  A successful initialization for a session that already
    has an avatar stores the new wrapper in the avatar table and overwrites
    the session's binding with the new id.  The avatar bound before is not
    released: when its id differs from the new one, its table entry and its
    temporary directory stay. *)
Theorem rebind_overwrites_binding E client_id new_id p version dir s c old w_old :
  clients s !! client_id = Some c →
  avatar_id c = Some old →
  avatars s !! old = Some w_old →
  abspath E p ∈ files s →
  abspath E "scripts/inference.py" ∈ files s →
  let s' := (initialize_avatar E client_id new_id (JStr p) version dir true s).2 in
  clients s' !! client_id = Some (set_avatar_id (Some new_id) c)
  ∧ avatars s' !! new_id = Some (Wrapper (abspath E p) version dir true)
  ∧ (old ≠ new_id →
     avatars s' !! old = Some w_old
     ∧ (temp_dir w_old ∈ files s → temp_dir w_old ∈ files s')).
Proof.
  intros Hc Hold Hw Hp Hproj.
  unfold initialize_avatar, try_except, bind, MuseTalkWrapper_init, bind,
    modify, gets. simpl.
  rewrite !bool_decide_eq_true_2 by set_solver. simpl.
  unfold ret, prepare_avatar_realtime. simpl.
  unfold client_update, bind, client_get. simpl. rewrite Hc.
  unfold modify, create_task_in_thread, raise. simpl.
  split; [apply lookup_insert_eq|].
  split; [apply lookup_insert_eq|].
  intros Hne. split; [by rewrite lookup_insert_ne|set_solver].
Qed.

Lemma rebind_overwrites_binding_witness :
  clients rebound_server !! "client_1"
  = Some (set_avatar_id (Some "avatar_client_1_1700000060")
            (set_avatar_id (Some "avatar_client_1_1700000000") (new_client 1)))
  ∧ avatars rebound_server !! "avatar_client_1_1700000060"
    = Some (Wrapper "/data/video.mp4" (JStr "v15") "/tmp/musetalk_wrapper_b" true)
  ∧ ("avatar_client_1_1700000000" ≠ "avatar_client_1_1700000060" →
     avatars rebound_server !! "avatar_client_1_1700000000" = Some demo_wrapper
     ∧ (temp_dir demo_wrapper ∈ files bound_server →
        temp_dir demo_wrapper ∈ files rebound_server)).
Proof.
  apply (rebind_overwrites_binding demo_env "client_1" "avatar_client_1_1700000060"
           "/data/video.mp4" (JStr "v15") "/tmp/musetalk_wrapper_b" bound_server
           (set_avatar_id (Some "avatar_client_1_1700000000") (new_client 1))
           "avatar_client_1_1700000000" demo_wrapper);
    try reflexivity; vm_compute; set_solver.
Defined.

(** ** The audio pipeline *)

(** Every way through the loop body ends in the scheduling call, in the body
    itself or in the [except] clause, so the body always leaves the loop with
    [RuntimeError] and writes nothing to the websocket. *)
Lemma process_chunk_raises E now audio_bytes g p :
  process_chunk E now audio_bytes g p
  = (Raise (Exn RuntimeError "no running event loop"), p).
Proof. by destruct g. Qed.

Lemma worker_step_busy E now g audio_bytes p :
  worker_step E now g (WBusy audio_bytes) p = (Some WFinally, p).
Proof.
  unfold worker_step, worker_stmt, bind. by rewrite process_chunk_raises.
Qed.

Lemma one_worker_ready ws avatar : one_worker (ready ws avatar).
Proof. repeat split; simpl; (lia || done). Qed.

Ltac close_inv :=
  repeat split; simpl; intros;
  first [ lia | done | congruence | tauto | (exfalso; auto; congruence) ].

Lemma one_worker_step E l p p' :
  one_worker p → step E l p = Some p' → one_worker p'.
Proof.
  intros (Hlen & Hflag & Hset & Hstart) Hstep.
  destruct l as [b| |i now g]; simpl in Hstep.
  - destruct (handler p) eqn:Hh; simplify_eq.
    unfold one_worker; simpl. close_inv.
  - destruct (handler p) eqn:Hh; simplify_eq; unfold one_worker; simpl.
    + destruct (processing (session p)) eqn:Hp; simpl; close_inv.
    + specialize (Hset eq_refl). specialize (Hflag Hset). close_inv.
    + destruct Hstart as [Hp Hw]; [done|]. rewrite Hw. simpl. close_inv.
    + close_inv.
  - destruct (workers p !! i) as [pc|] eqn:Hi; [|done].
    assert (workers p = [pc] ∧ i = 0%nat) as [Hw ->].
    { destruct (workers p) as [|pc' [|? ?]]; simpl in *; [done| |lia].
      destruct i; simpl in *; [by simplify_eq|done]. }
    assert (processing (session p) = true) as Hp.
    { destruct (processing (session p)); [done|]. rewrite Hflag in Hw; done. }
    assert (handler p ≠ HSet) as Hns by (intros H; rewrite Hset in Hp; done).
    assert (handler p ≠ HStart) as Hnt.
    { intros H. destruct (Hstart H) as [_ Hnil]. rewrite Hnil in Hw. done. }
    assert (∀ pc' q, workers q = workers p →
                     processing (session q) = processing (session p) →
                     handler q = handler p →
                     one_worker (set_workers (λ l, <[0%nat := pc']> l) q)) as Hkeep.
    { intros pc' q Hqw Hqs Hqh. unfold one_worker; simpl.
      rewrite Hqw, Hqs, Hqh, Hw. simpl. close_inv. }
    destruct pc as [| |b|].
    + unfold worker_step, worker_stmt, bind, gets, ret in Hstep. simplify_eq.
      by apply Hkeep.
    + unfold worker_step, worker_stmt, bind, gets in Hstep.
      destruct (audio_queue (session p)) as [|b rest]; simpl in Hstep; simplify_eq;
        by apply Hkeep.
    + rewrite worker_step_busy in Hstep. simplify_eq. by apply Hkeep.
    + unfold worker_step, worker_stmt, bind, modify, ret in Hstep. simplify_eq.
      unfold one_worker; simpl. rewrite Hw. simpl. close_inv.
Qed.

Lemma one_worker_run E tr p p' :
  one_worker p → run E tr p = Some p' → one_worker p'.
Proof.
  revert p. induction tr as [|l tr IH]; intros p Hinv Hrun; simpl in Hrun.
  - by simplify_eq.
  - destruct (step E l p) as [p1|] eqn:Hstep; [|done].
    eapply IH; [|done]. by eapply one_worker_step.
Qed.

Lemma in_flight_le p : (in_flight p ≤ length (workers p))%nat.
Proof. unfold in_flight. apply List.filter_length_le. Qed.

(** C2.  In every state a session reaches through any interleaving of chunk
    arrivals, handler statements and worker statements, at most one worker
    thread lives, so at most one generation is in flight; a living worker
    has the flag set; and the handler starts a thread only when no worker
    lives. *)
Theorem at_most_one_worker E ws avatar tr p :
  run E tr (ready ws avatar) = Some p →
  (length (workers p) ≤ 1)%nat
  ∧ (in_flight p ≤ 1)%nat
  ∧ (workers p ≠ [] → processing (session p) = true)
  ∧ (handler p = HStart →
     workers p = [] ∧ workers <$> step E Handle p = Some [WLoop]).
Proof.
  intros Hrun.
  destruct (one_worker_run E tr _ p (one_worker_ready ws avatar) Hrun)
    as (Hlen & Hflag & Hset & Hstart).
  split; [done|]. split; [pose proof (in_flight_le p); lia|]. split.
  - intros Hne. destruct (processing (session p)); [done|]. by destruct Hne; auto.
  - intros Hh. destruct (Hstart Hh) as [_ Hnil]. split; [done|].
    simpl. rewrite Hh. simpl. by rewrite Hnil.
Qed.

Lemma at_most_one_worker_witness :
  ∃ p, run demo_env (Arrive chunk1 :: repeat Handle 3) (ready 1 "avatar_a") = Some p
       ∧ (length (workers p) ≤ 1)%nat
       ∧ (in_flight p ≤ 1)%nat
       ∧ (workers p ≠ [] → processing (session p) = true)
       ∧ (handler p = HStart →
          workers p = [] ∧ workers <$> step demo_env Handle p = Some [WLoop]).
Proof.
  eexists. split; [reflexivity|].
  apply (at_most_one_worker demo_env 1 "avatar_a" (Arrive chunk1 :: repeat Handle 3)).
  reflexivity.
Defined.

(** Chunks leave the queue in the order they entered it: what arrived is
    what was taken, followed by what still waits. *)
Lemma fifo_step E l p p' :
  arrived p = taken p ++ audio_queue (session p) →
  step E l p = Some p' →
  arrived p' = taken p' ++ audio_queue (session p').
Proof.
  intros Hinv Hstep. destruct l as [b| |i now g]; simpl in Hstep.
  - destruct (handler p); simplify_eq. simpl. rewrite Hinv. by rewrite app_assoc.
  - destruct (handler p); by simplify_eq.
  - destruct (workers p !! i) as [pc|]; [|done].
    destruct pc as [| |b|].
    + unfold worker_step, worker_stmt, bind, gets, ret in Hstep. by simplify_eq.
    + unfold worker_step, worker_stmt, bind, gets in Hstep.
      destruct (audio_queue (session p)) as [|b rest] eqn:Hq; simpl in Hstep;
        simplify_eq; simpl.
      * by rewrite Hinv, Hq.
      * rewrite Hinv. by rewrite <- app_assoc.
    + rewrite worker_step_busy in Hstep. by simplify_eq.
    + unfold worker_step, worker_stmt, bind, modify, ret in Hstep. by simplify_eq.
Qed.

Lemma fifo_order E ws avatar tr p :
  run E tr (ready ws avatar) = Some p →
  arrived p = taken p ++ audio_queue (session p).
Proof.
  assert (∀ q, arrived q = taken q ++ audio_queue (session q) →
               run E tr q = Some p →
               arrived p = taken p ++ audio_queue (session p)) as Hgen.
  { induction tr as [|l tr IH]; intros q Hq Hrun; simpl in Hrun.
    - by simplify_eq.
    - destruct (step E l q) as [q1|] eqn:Hstep; [|done].
      eapply IH; [|done]. by eapply fifo_step. }
  apply Hgen. done.
Qed.

(** The only frames a session ever gets from its pipeline are the
    acknowledgements the handler writes. *)
Lemma only_acks_step E l p p' :
  Forall (λ e, e = audio_received) (sent p) →
  step E l p = Some p' →
  Forall (λ e, e = audio_received) (sent p').
Proof.
  intros Hinv Hstep. destruct l as [b| |i now g]; simpl in Hstep.
  - destruct (handler p); by simplify_eq.
  - destruct (handler p); simplify_eq; simpl; try done.
    apply Forall_app. split; [done|]. by constructor.
  - destruct (workers p !! i) as [pc|]; [|done].
    destruct pc as [| |b|].
    + unfold worker_step, worker_stmt, bind, gets, ret in Hstep. by simplify_eq.
    + unfold worker_step, worker_stmt, bind, gets in Hstep.
      destruct (audio_queue (session p)); simpl in Hstep; by simplify_eq.
    + rewrite worker_step_busy in Hstep. by simplify_eq.
    + unfold worker_step, worker_stmt, bind, modify, ret in Hstep. by simplify_eq.
Qed.

Lemma only_acks E ws avatar tr p :
  run E tr (ready ws avatar) = Some p →
  Forall (λ e, e = audio_received) (sent p).
Proof.
  assert (∀ q, Forall (λ e, e = audio_received) (sent q) →
               run E tr q = Some p →
               Forall (λ e, e = audio_received) (sent p)) as Hgen.
  { induction tr as [|l tr IH]; intros q Hq Hrun; simpl in Hrun.
    - by simplify_eq.
    - destruct (step E l q) as [q1|] eqn:Hstep; [|done].
      eapply IH; [|done]. by eapply only_acks_step. }
  apply Hgen. constructor.
Qed.

(** In a stranded state nothing but a further arrival can happen: the
    waiting chunk is not looked at until the client sends another one. *)
Lemma stranded_stuck E p :
  stranded p = true →
  step E Handle p = None ∧ ∀ i now g, step E (Work i now g) p = None.
Proof.
  unfold stranded. intros H.
  destruct (audio_queue (session p)); [done|].
  destruct (workers p) eqn:Hw; [|done].
  destruct (handler p) eqn:Hh; try done.
  split; simpl; [by rewrite Hh|]. intros i now g. by rewrite Hw.
Qed.

(** What [handle_audio_chunk] does for a ready session and a decodable
    chunk. *)
Lemma handle_audio_chunk_ready E client_id s c a w fields d b :
  clients s !! client_id = Some c →
  avatar_id c = Some a → a ≠ "" → avatars s !! a = Some w →
  websocket c ∉ closed s →
  assoc "audio_data" fields = Some (JStr d) → d ≠ "" → b64decode E d = Some b →
  handle_audio_chunk E client_id (JObj fields) s
  = (Ok tt, enqueued client_id c b s).
Proof.
  intros Hc Ha Hne Hw Hopen Hd Hdne Hb.
  unfold handle_audio_chunk, enqueued, try_except, bind at 1, gets at 1.
  rewrite Hc. unfold bind at 1, gets at 1. rewrite Ha. simpl.
  assert (String.eqb a "" = false) as -> by (by apply String.eqb_neq).
  rewrite Hw. simpl.
  unfold bind at 1, json_get, ret at 1. rewrite Hd. simpl.
  assert (String.eqb d "" = false) as -> by (by apply String.eqb_neq).
  simpl. unfold bind at 1. rewrite Hb. unfold ret at 1.
  unfold bind at 1, client_update, bind at 1, client_get. rewrite Hc.
  unfold modify at 1. unfold bind at 1. simpl. rewrite lookup_insert_eq. simpl.
  destruct (processing c) eqn:Hp; simpl.
  - unfold bind, ret.
    by rewrite (send_message_open _ _ _ (set_audio_queue (audio_queue c ++ [b]) c))
      by (simpl; [apply lookup_insert_eq || done]).
  - unfold bind, modify, start_thread, modify. simpl.
    rewrite lookup_insert_eq. simpl.
    by rewrite (send_message_open _ _ _
               (set_processing true (set_audio_queue (audio_queue c ++ [b]) c)))
      by (simpl; [apply lookup_insert_eq || done]).
Qed.

(** The statements of [handle_audio_chunk] from the [put] on, run without
    a worker statement in between, do to the session what the handler does
    to its entry in the server: same entry, same frames on its websocket,
    and a thread started exactly when the handler starts one. *)
Lemma handle_audio_chunk_steps E client_id s c a w fields d b wk ar tk :
  clients s !! client_id = Some c →
  avatar_id c = Some a → a ≠ "" → avatars s !! a = Some w →
  websocket c ∉ closed s →
  assoc "audio_data" fields = Some (JStr d) → d ≠ "" → b64decode E d = Some b →
  let s' := (handle_audio_chunk E client_id (JObj fields) s).2 in
  let p := Pipeline c HIdle wk (sent_to (websocket c) s) ar tk in
  ∃ p', run E (Arrive b :: repeat Handle (if processing c then 2 else 4)) p = Some p'
        ∧ handler p' = HIdle
        ∧ clients s' !! client_id = Some (session p')
        ∧ sent_to (websocket c) s' = sent p'
        ∧ (length (threads s') + length wk
           = length (threads s) + length (workers p'))%nat.
Proof.
  intros Hc Ha Hne Hw Hopen Hd Hdne Hb. simpl.
  rewrite (handle_audio_chunk_ready E client_id s c a w fields d b) by done.
  unfold enqueued, sent_to. simpl.
  destruct (processing c) eqn:Hp; simpl.
  - eexists. rewrite Hp. simpl. split; [reflexivity|]. simpl.
    split; [done|]. split; [apply lookup_insert_eq|]. split; [|lia].
    rewrite omap_app. simpl. by rewrite decide_True.
  - eexists. rewrite Hp. simpl. split; [reflexivity|]. simpl.
    split; [done|]. split; [apply lookup_insert_eq|].
    split; [|rewrite !length_app; simpl; lia].
    rewrite omap_app. simpl. by rewrite decide_True.
Qed.

(** C1 fails on the code.  In the first run the second chunk arrives while
    the only worker stands before its [finally] clause: the handler sees the
    flag set and starts nothing, then the worker clears the flag and ends.
    In the second run two chunks are queued before the worker takes the
    first; its loop body raises, and it ends with the second chunk still
    queued.  Both runs end stranded. *)
Theorem chunk_left_without_worker :
  stranded <$> run demo_env late_arrival (ready 1 "avatar_a") = Some true
  ∧ stranded <$> run demo_env two_queued (ready 1 "avatar_a") = Some true.
Proof. split; reflexivity. Qed.

(** C3 fails on the code.  Three chunks arrive for a ready session and the
    worker runs until it ends, every generation succeeding: the session gets
    its three acknowledgements and not one [video_chunk] or [error] frame;
    the worker took the first chunk only, and the other two wait in the
    queue, in order, with the flag cleared. *)
Theorem three_chunks_no_frames :
  run demo_env three_chunks (ready 1 "avatar_a")
  = Some (Pipeline (Client 1 (Some "avatar_a") [chunk2; chunk3] false)
            HIdle []
            [audio_received; audio_received; audio_received]
            [chunk1; chunk2; chunk3]
            [chunk1])
  ∧ (λ p, List.filter is_result (sent p)) <$>
      run demo_env three_chunks (ready 1 "avatar_a") = Some [].
Proof. split; reflexivity. Qed.

(** C4 fails on the code.  When the generation succeeds, the loop body
    builds the [video_chunk] frame and passes it to the scheduling call,
    which raises in the worker thread; the [except] clause raises the same
    way.  The worker leaves the loop for its [finally] clause and the
    session's websocket has received nothing. *)
Theorem generated_video_not_delivered E now audio_bytes video_data p :
  process_chunk E now audio_bytes (Generated video_data) p
  = (Raise (Exn RuntimeError "no running event loop"), p)
  ∧ worker_step E now (Generated video_data) (WBusy audio_bytes) p
    = (Some WFinally, p)
  ∧ sent (worker_step E now (Generated video_data) (WBusy audio_bytes) p).2
    = sent p.
Proof.
  split; [apply process_chunk_raises|].
  rewrite worker_step_busy. done.
Qed.
